(** * A shallow embedding of [createWithReset] (src/src/index.ts) on top of
    the part of zustand's store engine that it uses ([create], [setState],
    [getState]).

    JavaScript values are modelled by [val].  An object held in a value
    ([VObj]) carries its identity, its own enumerable data properties and
    its prototype; [Object.prototype] itself is [VObjectPrototype].  The
    objects the code works on are of two shapes:
    - [obj], the association list of the own enumerable properties, in
      insertion order, of an object whose prototype is [Object.prototype]
      (Raw State as an object literal, the store's state, the partial
      objects given to [set]);
    - [plain], own properties together with an explicit prototype, for the
      two objects the code builds with [{}] and fills by assignment
      ([initialState], line 78, and [resetValues], line 96).
    Assignment [o[k] = v] to a [plain] follows OrdinarySet, including the
    setter [__proto__] that every such object inherits from
    [Object.prototype]: it replaces the prototype instead of adding an own
    key.  [k in o] and [o[k]] walk the prototype chain.  Property keys are
    strings or symbols.  Functions are the user's closures (identified by a
    number and given a meaning by [user_fn]), the two default closures made
    by [createWithReset] and the methods of [Object.prototype].

    zustand's engine is modelled by its contract: [setState(partial)]
    overlays the own properties of [partial] onto the state. *)

From Stdlib Require Import String List ZArith Bool Lia.
From Stdlib Require Import DecimalString.
Import ListNotations.
Open Scope string_scope.
Set Warnings "-register-all".

(** ** JavaScript values and objects *)

Inductive pkey : Type :=
| KStr (s : string)
| KSym (n : nat).

Definition pkey_eqb (a b : pkey) : bool :=
  match a, b with
  | KStr x, KStr y => String.eqb x y
  | KSym x, KSym y => Nat.eqb x y
  | _, _ => false
  end.

(** Callable values. *)
Inductive fnv : Type :=
| FUser (id : nat)              (* a closure written by the library user *)
| FDefaultResetStore            (* [defaultResetStore], line 92 *)
| FDefaultResetState            (* [defaultResetState], lines 93-105 *)
| FBuiltin (name : string).     (* a method of Object.prototype *)

Inductive val : Type :=
| VUndef
| VNull
| VBool (b : bool)
| VNum (z : Z)
| VStr (s : string)
| VSym (n : nat)
| VObj (r : nat) (props : list (pkey * val)) (proto : val)
    (* another object: identity, own data properties, prototype *)
| VObjectPrototype              (* Object.prototype *)
| VFun (f : fnv).

Definition obj : Type := list (pkey * val).

(** [typeof v === 'function'] *)
Definition is_function (v : val) : bool :=
  match v with VFun _ => true | _ => false end.

(** [v] is an object or [null]: what the setter [__proto__] accepts. *)
Definition is_object_or_null (v : val) : bool :=
  match v with
  | VNull | VObj _ _ _ | VObjectPrototype | VFun _ => true
  | _ => false
  end.

Fixpoint lookup (o : obj) (k : pkey) : option val :=
  match o with
  | [] => None
  | (k', v) :: o' => if pkey_eqb k k' then Some v else lookup o' k
  end.

(** CreateDataProperty: overwrite the own property in place or add it at
    the end.  This is how object spread and object literals define
    properties. *)
Fixpoint js_set (o : obj) (k : pkey) (v : val) : obj :=
  match o with
  | [] => [(k, v)]
  | (k', v') :: o' =>
      if pkey_eqb k k' then (k', v) :: o' else (k', v') :: js_set o' k v
  end.

(** [Object.assign(target, src)] by the store engine's contract, also used
    for object spread. *)
Definition assign (target src : obj) : obj :=
  fold_left (fun acc kv => js_set acc (fst kv) (snd kv)) src target.

(** [Object.keys(o)]: the own enumerable string keys, each once (a later
    binding of a key already seen is shadowed, as [lookup] reads it). *)
Fixpoint string_keys (o : obj) : list string :=
  match o with
  | [] => []
  | (KStr s, _) :: o' => s :: filter (fun s' => negb (String.eqb s s')) (string_keys o')
  | (KSym _, _) :: o' => string_keys o'
  end.

(** The methods of [Object.prototype] (writable data properties). *)
Definition object_prototype_methods : list string :=
  ["constructor"; "__defineGetter__"; "__defineSetter__"; "hasOwnProperty";
   "__lookupGetter__"; "__lookupSetter__"; "isPrototypeOf";
   "propertyIsEnumerable"; "toString"; "valueOf"; "toLocaleString"].

Definition proto_get (k : pkey) : option val :=
  match k with
  | KStr s =>
      if existsb (String.eqb s) object_prototype_methods
      then Some (VFun (FBuiltin s)) else None
  | KSym _ => None
  end.

(** What a property lookup finds: a data property, the accessor
    [__proto__] of [Object.prototype], or nothing. *)
Inductive found : Type :=
| Found (v : val)
| ProtoAccessor
| Missing.

(** Property lookup along the prototype chain that starts at [p]. *)
Fixpoint chain_find (p : val) (k : pkey) : found :=
  match p with
  | VObj _ props p' =>
      match lookup props k with Some v => Found v | None => chain_find p' k end
  | VObjectPrototype =>
      if pkey_eqb k (KStr "__proto__") then ProtoAccessor
      else match proto_get k with Some v => Found v | None => Missing end
  | _ => Missing
  end.

(** An object made by the code with [{}]: own properties and prototype. *)
Record plain : Type := mkPlain {
  own : obj;
  proto : val
}.

(** [{}] *)
Definition empty_plain : plain := mkPlain [] VObjectPrototype.

Definition find_prop (p : plain) (k : pkey) : found :=
  match lookup (own p) k with
  | Some v => Found v
  | None => chain_find (proto p) k
  end.

(** [p[k]]; the getter [__proto__] returns the receiver's prototype. *)
Definition get_prop (p : plain) (k : pkey) : val :=
  match find_prop p k with
  | Found v => v
  | ProtoAccessor => proto p
  | Missing => VUndef
  end.

(** [k in p]: own or inherited. *)
Definition has_prop (k : pkey) (p : plain) : bool :=
  match find_prop p k with Missing => false | _ => true end.

(** [p[k] = v] (OrdinarySet).  An own property is overwritten.  Otherwise
    an inherited data property (all writable here) makes a new own
    property, and the inherited accessor [__proto__] runs its setter:
    an object or [null] becomes the prototype (the objects built by the
    code are fresh, so no cycle arises), any other value is ignored. *)
Definition set_prop (p : plain) (k : pkey) (v : val) : plain :=
  match lookup (own p) k with
  | Some _ => mkPlain (js_set (own p) k v) (proto p)
  | None =>
      match chain_find (proto p) k with
      | ProtoAccessor => if is_object_or_null v then mkPlain (own p) v else p
      | _ => mkPlain (js_set (own p) k v) (proto p)
      end
  end.

(** [o[k]] for an object whose prototype is [Object.prototype]. *)
Definition js_get (o : obj) (k : pkey) : val := get_prop (mkPlain o VObjectPrototype) k.

(** [k in o] for an object whose prototype is [Object.prototype]. *)
Definition js_in (k : pkey) (o : obj) : bool := has_prop k (mkPlain o VObjectPrototype).

(** ** What the Initializer returns *)

Inductive prim : Type :=
| PUndef
| PNull
| PBool (b : bool)
| PNum (z : Z)
| PStr (s : string)
| PSym (n : nat).

(** An object Raw State: its own enumerable properties and its prototype
    ([VObjectPrototype] for an object literal). *)
Inductive raw : Type :=
| RawObj (o : obj) (p : val)
| RawPrim (p : prim).

Definition nat_key (n : nat) : string :=
  NilZero.string_of_uint (Nat.to_uint n).

(** The own enumerable properties of [ToObject(p)]: the index properties of
    a string wrapper; [None] when [ToObject] throws (null, undefined). *)
Definition prim_props (p : prim) : option obj :=
  match p with
  | PUndef | PNull => None
  | PStr s =>
      Some (map (fun i => (KStr (nat_key i), VStr (substring i 1 s)))
                (seq 0 (String.length s)))
  | PBool _ | PNum _ | PSym _ => Some []
  end.

(** The own enumerable properties of [ToObject(state)]. *)
Definition raw_props (r : raw) : option obj :=
  match r with RawObj o _ => Some o | RawPrim p => prim_props p end.

(** [state[k]] *)
Definition raw_field (r : raw) (k : string) : val :=
  match r with
  | RawObj o p => get_prop (mkPlain o p) (KStr k)
  | RawPrim q => match prim_props q with Some o => js_get o (KStr k) | None => VUndef end
  end.

(** ** The effects: a world, a trace and a state/exception monad *)

Inductive exn : Type :=
| JsError (name : string)        (* an error raised by the JS engine *)
| UserThrow (n : nat).           (* a value thrown by user code *)

Definition type_error : exn := JsError "TypeError".

Inductive result (A : Type) : Type :=
| Ok (a : A)
| Throw (e : exn).
Arguments Ok {A} a.
Arguments Throw {A} e.

(** Arguments of a reset call: [K | K[]]. *)
Inductive arg : Type :=
| AOne (k : pkey)
| AMany (ks : list pkey).

Inductive event : Type :=
| EInit                          (* the user's Initializer is invoked *)
| EAlloc (f : fnv)               (* a closure of the library is created *)
| ECall (f : val)                (* a state field is called *)
| ESet (partial : obj).          (* zustand's [set] is called *)

Record world : Type := mkWorld {
  store : option obj;            (* zustand's [state]; None before [create] *)
  snapshot : plain;              (* [initialState], captured by the closures *)
  ext : Z;                       (* state outside the store, for user code *)
  trace : list event
}.

Definition M (A : Type) : Type := world -> result A * world.

Definition ret {A} (a : A) : M A := fun w => (Ok a, w).
Definition throw {A} (e : exn) : M A := fun w => (Throw e, w).
Definition bind {A B} (m : M A) (k : A -> M B) : M B :=
  fun w => match m w with
           | (Ok a, w') => k a w'
           | (Throw e, w') => (Throw e, w')
           end.

Notation "x <- m ;; k" := (bind m (fun x => k))
  (at level 61, m at next level, right associativity).
Notation "m ;; k" := (bind m (fun _ => k)) (at level 61, right associativity).

Definition current (w : world) : obj :=
  match store w with Some o => o | None => [] end.

Definition log (e : event) : M unit :=
  fun w => (Ok tt, mkWorld (store w) (snapshot w) (ext w) (trace w ++ [e])).

Definition get_snapshot : M plain := fun w => (Ok (snapshot w), w).

(** zustand's [setState(partial)] with an object [partial] and [replace]
    unset, by its contract: the own properties of [partial] are overlaid
    on the state ([state = Object.assign({}, state, partial)]; the model
    has no identity for the state object, so the copy into [{}] is the
    state itself). *)
Definition zset (partial : obj) : M unit :=
  fun w => (Ok tt, mkWorld (Some (assign (current w) partial))
                           (snapshot w) (ext w) (trace w ++ [ESet partial])).

(** zustand's [getState()[k]]. *)
Definition zget_field (k : pkey) : M val := fun w => (Ok (js_get (current w) k), w).

(** [keys.flat()] *)
Definition flat (keys : list arg) : list pkey :=
  flat_map (fun a => match a with AOne k => [k] | AMany ks => ks end) keys.

(** The [resetValues] object of [defaultResetState] (lines 96-102). *)
Definition stage (initialState : plain) (keysToReset : list pkey) : plain :=
  fold_left (fun resetValues key =>
               if has_prop key initialState
               then set_prop resetValues key (get_prop initialState key)
               else resetValues)
            keysToReset empty_plain.

(** One step of the loop of lines 98-102. *)
Definition stage_step (initialState : plain) (resetValues : plain) (key : pkey) : plain :=
  if has_prop key initialState
  then set_prop resetValues key (get_prop initialState key)
  else resetValues.

Section Semantics.

(** The meaning of the user's closures: from the arguments, the store's
    current state and the outside world, a result, the next state and the
    next outside world. *)
Variable user_fn : nat -> list arg -> obj -> Z -> result unit * (obj * Z).

Definition user_call (id : nat) (args : list arg) : M unit :=
  fun w => let '(r, (o', e')) := user_fn id args (current w) (ext w) in
           (r, mkWorld (Some o') (snapshot w) e' (trace w)).

(** Calling a value with arguments.  [set(o)] hands the engine the own
    properties of [o]. *)
Definition call_fn (f : val) (args : list arg) : M unit :=
  log (ECall f) ;;
  match f with
  | VFun (FUser id) => user_call id args
  | VFun FDefaultResetStore =>
      (* () => set(initialState) *)
      initialState <- get_snapshot ;; zset (own initialState)
  | VFun FDefaultResetState =>
      initialState <- get_snapshot ;;
      zset (own (stage initialState (flat args)))
  | VFun (FBuiltin _) => ret tt
  | _ => throw type_error
  end.

(** [useStore.getState()[name](...args)] *)
Definition call_field (name : string) (args : list arg) : M unit :=
  f <- zget_field (KStr name) ;; call_fn f args.

End Semantics.

(** The Initializer: run against the outside world, it returns the Raw
    State or throws. *)
Definition initializer : Type := Z -> result raw * Z.

Definition call_initializer (createState : initializer) : M raw :=
  log EInit ;;
  fun w => let '(r, e') := createState (ext w) in
           (r, mkWorld (store w) (snapshot w) e' (trace w)).

(** [Object.keys(state)] *)
Definition object_keys (state : raw) : M (list string) :=
  match raw_props state with
  | Some o => ret (string_keys o)
  | None => throw type_error
  end.

(** [name in state] *)
Definition raw_in (name : string) (state : raw) : M bool :=
  match state with
  | RawObj o p => ret (has_prop (KStr name) (mkPlain o p))
  | RawPrim _ => throw type_error
  end.

(** ['resetStore' in state && typeof state.resetStore === 'function'] *)
Definition user_defined (name : string) (state : raw) : M bool :=
  b <- raw_in name state ;;
  if b then ret (is_function (raw_field state name)) else ret false.

Definition alloc (f : fnv) : M val := log (EAlloc f) ;; ret (VFun f).

Definition bind_snapshot (initialState : plain) : M unit :=
  fun w => (Ok tt, mkWorld (store w) initialState (ext w) (trace w)).

(** zustand's [create]: the produced state becomes the store's state. *)
Definition init_store (o : obj) : M unit :=
  fun w => (Ok tt, mkWorld (Some o) (snapshot w) (ext w) (trace w)).

(** Lines 77-85. *)
Definition initial_state (state : raw) (keys : list string) : plain :=
  fold_left (fun initialState key =>
               let v := raw_field state key in
               if negb (is_function v)
               then set_prop initialState (KStr key) v
               else initialState)
            keys empty_plain.

(** One step of the loop of lines 80-85. *)
Definition initial_step (state : raw) (initialState : plain) (key : string) : plain :=
  let v := raw_field state key in
  if negb (is_function v) then set_prop initialState (KStr key) v else initialState.

(** [{...state}] *)
Definition spread (state : raw) : obj :=
  match state with RawObj o _ => assign [] o | RawPrim _ => [] end.

Definition createWithReset (createState : initializer) : M unit :=
  state <- call_initializer createState ;;
  keys <- object_keys state ;;
  let initialState := initial_state state keys in
  userDefinedResetStore <- user_defined "resetStore" state ;;
  userDefinedResetState <- user_defined "resetState" state ;;
  bind_snapshot initialState ;;
  defaultResetStore <- alloc FDefaultResetStore ;;
  defaultResetState <- alloc FDefaultResetState ;;
  init_store
    (js_set (js_set (spread state)
               (KStr "resetStore")
               (if userDefinedResetStore then raw_field state "resetStore"
                else defaultResetStore))
            (KStr "resetState")
            (if userDefinedResetState then raw_field state "resetState"
             else defaultResetState)).

(** Operations on a constructed store. *)
Inductive op : Type :=
| OpSetState (partial : obj)                 (* useStore.setState(partial) *)
| OpCall (name : string) (args : list arg).  (* getState()[name](...args) *)

Definition run_op (user_fn : nat -> list arg -> obj -> Z -> result unit * (obj * Z))
    (o : op) : M unit :=
  match o with
  | OpSetState p => zset p
  | OpCall n a => call_field user_fn n a
  end.

(** Each operation is a separate call from outside: a throw ends that call
    only. *)
Fixpoint run_ops (user_fn : nat -> list arg -> obj -> Z -> result unit * (obj * Z))
    (ops : list op) (w : world) : world :=
  match ops with
  | [] => w
  | o :: os => run_ops user_fn os (snd (run_op user_fn o w))
  end.

Definition empty_world : world := mkWorld None empty_plain 0 [].

(** The counter store of the test suite. *)
Definition counter_raw : raw :=
  RawObj [(KStr "count", VNum 0); (KStr "secondaryCount", VNum 10);
          (KStr "increment", VFun (FUser 0)); (KStr "decrement", VFun (FUser 1))]
         VObjectPrototype.

Definition counter_fn (id : nat) (_ : list arg) (st : obj) (e : Z)
    : result unit * (obj * Z) :=
  let c := match js_get st (KStr "count") with VNum z => z | _ => 0%Z end in
  match id with
  | 0 => (Ok tt, (assign (assign [] st) [(KStr "count", VNum (c + 1))], e))
  | 1 => (Ok tt, (assign (assign [] st) [(KStr "count", VNum (c - 1))], e))
  | _ => (Ok tt, (st, e))
  end.


Example counter_scenario :
  let w1 := snd (createWithReset (fun e => (Ok counter_raw, e)) empty_world) in
  let w2 := run_ops counter_fn [OpCall "increment" []; OpCall "increment" []] w1 in
  let w3 := run_ops counter_fn [OpCall "resetState" [AOne (KStr "count")]] w2 in
  let w4 := run_ops counter_fn [OpSetState [(KStr "secondaryCount", VNum 15)];
                                OpCall "resetStore" []] w3 in
  js_get (current w2) (KStr "count") = VNum 2 /\
  js_get (current w3) (KStr "count") = VNum 0 /\
  js_get (current w3) (KStr "secondaryCount") = VNum 10 /\
  js_get (current w4) (KStr "count") = VNum 0 /\
  js_get (current w4) (KStr "secondaryCount") = VNum 10.
Proof. vm_compute. repeat split. Qed.

(** Both reserved fields hold the defaults and neither name is found by
    [in] on the Initial Snapshot. *)
Definition reset_fields_intact (w : world) : Prop :=
  has_prop (KStr "resetStore") (snapshot w) = false /\
  has_prop (KStr "resetState") (snapshot w) = false /\
  lookup (current w) (KStr "resetStore") = Some (VFun FDefaultResetStore) /\
  lookup (current w) (KStr "resetState") = Some (VFun FDefaultResetState).

(** ** Lemmas on objects *)

Lemma pkey_eqb_eq (a b : pkey) : pkey_eqb a b = true <-> a = b.
Proof.
  destruct a as [x|x], b as [y|y]; simpl; split; intro H; try discriminate.
  - apply String.eqb_eq in H; congruence.
  - inversion H; apply String.eqb_refl.
  - apply Nat.eqb_eq in H; congruence.
  - inversion H; apply Nat.eqb_refl.
Qed.

Lemma pkey_eqb_refl (a : pkey) : pkey_eqb a a = true.
Proof. apply pkey_eqb_eq; reflexivity. Qed.

Lemma pkey_eqb_neq (a b : pkey) : a <> b -> pkey_eqb a b = false.
Proof.
  intro H. destruct (pkey_eqb a b) eqn:E; [|reflexivity].
  apply pkey_eqb_eq in E. contradiction.
Qed.

Lemma lookup_js_set_same (o : obj) (k : pkey) (v : val) :
  lookup (js_set o k v) k = Some v.
Proof.
  induction o as [|[k' v'] o IH]; simpl.
  - rewrite pkey_eqb_refl; reflexivity.
  - destruct (pkey_eqb k k') eqn:E; simpl.
    + apply pkey_eqb_eq in E; subst. rewrite pkey_eqb_refl. reflexivity.
    + rewrite E. exact IH.
Qed.

Lemma lookup_js_set_other (o : obj) (k k' : pkey) (v : val) :
  k' <> k -> lookup (js_set o k v) k' = lookup o k'.
Proof.
  intro Hne. induction o as [|[k0 v0] o IH]; simpl.
  - rewrite (pkey_eqb_neq _ _ Hne). reflexivity.
  - destruct (pkey_eqb k k0) eqn:E; simpl.
    + apply pkey_eqb_eq in E; subst. rewrite (pkey_eqb_neq _ _ Hne). reflexivity.
    + rewrite IH. reflexivity.
Qed.

Lemma lookup_In (o : obj) (k : pkey) (v : val) :
  lookup o k = Some v -> In k (map fst o).
Proof.
  induction o as [|[k0 v0] o IH]; simpl; [discriminate|].
  destruct (pkey_eqb k k0) eqn:E.
  - apply pkey_eqb_eq in E; subst; auto.
  - intro H; right; auto.
Qed.

Lemma lookup_None (o : obj) (k : pkey) :
  ~ In k (map fst o) -> lookup o k = None.
Proof.
  intro H. destruct (lookup o k) eqn:E; [|reflexivity].
  exfalso; apply H; eapply lookup_In; eauto.
Qed.

Lemma lookup_In_exists (o : obj) (k : pkey) :
  In k (map fst o) -> exists v, lookup o k = Some v.
Proof.
  intro H. destruct (lookup o k) eqn:E; [eauto|].
  induction o as [|[k0 v0] o IH]; simpl in *; [contradiction|].
  destruct (pkey_eqb k k0) eqn:F; [discriminate|].
  destruct H as [H|H]; [subst; rewrite pkey_eqb_refl in F; discriminate|auto].
Qed.

Lemma not_in_of_lookup_none (o : obj) (k : pkey) :
  lookup o k = None -> ~ In k (map fst o).
Proof.
  intros H Hin. apply lookup_In_exists in Hin. destruct Hin as [v Hv]. congruence.
Qed.

Lemma in_keys_js_set (o : obj) (k k' : pkey) (v : val) :
  In k' (map fst (js_set o k v)) <-> k' = k \/ In k' (map fst o).
Proof.
  induction o as [|[k0 v0] o IH]; simpl.
  - intuition.
  - destruct (pkey_eqb k k0) eqn:E; simpl.
    + apply pkey_eqb_eq in E; subst. intuition.
    + rewrite IH. intuition.
Qed.

Lemma nodup_js_set (o : obj) (k : pkey) (v : val) :
  NoDup (map fst o) -> NoDup (map fst (js_set o k v)).
Proof.
  induction o as [|[k0 v0] o IH]; simpl; intro Hnd.
  - constructor; [intros []|constructor].
  - inversion Hnd as [|? ? Hnin Hnd']; subst.
    destruct (pkey_eqb k k0) eqn:E; simpl.
    + constructor; assumption.
    + assert (k <> k0) by (intro; subst; rewrite pkey_eqb_refl in E; discriminate).
      constructor; [|auto].
      rewrite in_keys_js_set. intros [->|Hin]; [congruence|contradiction].
Qed.

Lemma lookup_assign_frame (t s : obj) (k : pkey) :
  ~ In k (map fst s) -> lookup (assign t s) k = lookup t k.
Proof.
  unfold assign. revert t.
  induction s as [|[k0 v0] s IH]; intros t Hn; simpl in *; [reflexivity|].
  rewrite IH by tauto. apply lookup_js_set_other. intro; subst; tauto.
Qed.

Lemma lookup_assign_nodup (t s : obj) (k : pkey) :
  NoDup (map fst s) ->
  lookup (assign t s) k =
  match lookup s k with Some v => Some v | None => lookup t k end.
Proof.
  unfold assign. revert t.
  induction s as [|[k0 v0] s IH]; intros t Hnd; simpl in *; [reflexivity|].
  inversion Hnd as [|? ? Hnin Hnd']; subst.
  rewrite IH by assumption.
  destruct (pkey_eqb k k0) eqn:E.
  - apply pkey_eqb_eq in E; subst.
    rewrite (lookup_None s k0 Hnin). apply lookup_js_set_same.
  - destruct (lookup s k); [reflexivity|].
    apply lookup_js_set_other. intro; subst; rewrite pkey_eqb_refl in E; discriminate.
Qed.

(** Merging the same partial twice is merging it once. *)
Lemma lookup_assign_twice (t s : obj) (k : pkey) :
  NoDup (map fst s) ->
  lookup (assign (assign t s) s) k = lookup (assign t s) k.
Proof.
  intro Hnd. rewrite !(lookup_assign_nodup _ s k Hnd).
  destruct (lookup s k); reflexivity.
Qed.

Lemma existsb_pkey_In (k : pkey) (ks : list pkey) :
  existsb (pkey_eqb k) ks = true <-> In k ks.
Proof.
  rewrite existsb_exists. split.
  - intros [x [Hx E]]. apply pkey_eqb_eq in E; subst; assumption.
  - intro H. exists k. split; [assumption|apply pkey_eqb_refl].
Qed.

Lemma existsb_string_In (s : string) (l : list string) :
  existsb (String.eqb s) l = true <-> In s l.
Proof.
  rewrite existsb_exists. split.
  - intros [x [Hx E]]. apply String.eqb_eq in E; subst; assumption.
  - intro H. exists s. split; [assumption|apply String.eqb_refl].
Qed.

Lemma string_keys_In (o : obj) (s : string) :
  In s (string_keys o) <-> In (KStr s) (map fst o).
Proof.
  induction o as [|[[s'|n] v] o IH]; simpl; [tauto| |].
  - rewrite filter_In, IH.
    destruct (String.eqb s' s) eqn:E.
    + apply String.eqb_eq in E; subst. split; auto.
    + assert (s' <> s) by (intro; subst; rewrite String.eqb_refl in E; discriminate).
      simpl. split.
      * intros [H'|[H' _]]; [contradiction|auto].
      * intros [H'|H']; [congruence|auto].
  - rewrite IH. split; [auto|]. intros [H|H]; [discriminate|assumption].
Qed.

Lemma string_keys_nodup (o : obj) : NoDup (string_keys o).
Proof.
  induction o as [|[[s'|n] v] o IH]; simpl; [constructor| |assumption].
  constructor.
  - rewrite filter_In. rewrite String.eqb_refl. simpl. intros [_ H]; discriminate.
  - apply NoDup_filter. exact IH.
Qed.

(** ** Lemmas on the objects built with [{}] *)

Lemma chain_find_not_accessor (p : val) (k : pkey) :
  k <> KStr "__proto__" -> chain_find p k <> ProtoAccessor.
Proof.
  intro Hk. induction p as [| | b | z | s | n | r props p' IH | | f]; simpl;
    try discriminate.
  - destruct (lookup props k); [discriminate|exact IH].
  - destruct (pkey_eqb k (KStr "__proto__")) eqn:E.
    + apply pkey_eqb_eq in E; contradiction.
    + destruct (proto_get k); discriminate.
Qed.

(** Away from the key ["__proto__"], assignment defines an own property. *)
Lemma set_prop_other_key (p : plain) (k : pkey) (v : val) :
  k <> KStr "__proto__" -> set_prop p k v = mkPlain (js_set (own p) k v) (proto p).
Proof.
  intro Hk. unfold set_prop.
  destruct (lookup (own p) k); [reflexivity|].
  destruct (chain_find (proto p) k) eqn:E; try reflexivity.
  exfalso. exact (chain_find_not_accessor _ _ Hk E).
Qed.

Lemma lookup_set_prop_other (p : plain) (k k' : pkey) (v : val) :
  k' <> k -> lookup (own (set_prop p k v)) k' = lookup (own p) k'.
Proof.
  intro H. unfold set_prop.
  destruct (lookup (own p) k); [simpl; apply lookup_js_set_other; exact H|].
  destruct (chain_find (proto p) k); simpl; try (apply lookup_js_set_other; exact H).
  destruct (is_object_or_null v); reflexivity.
Qed.

Lemma in_keys_set_prop (p : plain) (k k' : pkey) (v : val) :
  In k' (map fst (own (set_prop p k v))) -> k' = k \/ In k' (map fst (own p)).
Proof.
  unfold set_prop. intro H.
  destruct (lookup (own p) k); [simpl in H; apply in_keys_js_set in H; exact H|].
  destruct (chain_find (proto p) k); simpl in H; try (apply in_keys_js_set in H; exact H).
  destruct (is_object_or_null v); simpl in H; auto.
Qed.

Lemma nodup_set_prop (p : plain) (k : pkey) (v : val) :
  NoDup (map fst (own p)) -> NoDup (map fst (own (set_prop p k v))).
Proof.
  unfold set_prop. intro H.
  destruct (lookup (own p) k); [simpl; apply nodup_js_set; exact H|].
  destruct (chain_find (proto p) k); simpl; try (apply nodup_js_set; exact H).
  destruct (is_object_or_null v); simpl; exact H.
Qed.

Lemma get_prop_own (p : plain) (k : pkey) (v : val) :
  lookup (own p) k = Some v -> get_prop p k = v.
Proof. intro H. unfold get_prop, find_prop. rewrite H. reflexivity. Qed.

Lemma has_prop_own (p : plain) (k : pkey) (v : val) :
  lookup (own p) k = Some v -> has_prop k p = true.
Proof. intro H. unfold has_prop, find_prop. rewrite H. reflexivity. Qed.

Lemma has_prop_none (p : plain) (k : pkey) :
  has_prop k p = false -> lookup (own p) k = None.
Proof.
  unfold has_prop, find_prop. destruct (lookup (own p) k); [discriminate|reflexivity].
Qed.

Lemma js_get_own (o : obj) (k : pkey) (v : val) :
  lookup o k = Some v -> js_get o k = v.
Proof. apply (get_prop_own (mkPlain o VObjectPrototype)). Qed.

Lemma js_in_own (o : obj) (k : pkey) (v : val) :
  lookup o k = Some v -> js_in k o = true.
Proof. apply (has_prop_own (mkPlain o VObjectPrototype)). Qed.

(** ** Lemmas on [stage] *)

Lemma stage_unfold (initialState : plain) (ks : list pkey) :
  stage initialState ks = fold_left (stage_step initialState) ks empty_plain.
Proof. reflexivity. Qed.

Lemma stage_fold_lookup (snap acc : plain) (ks : list pkey) (k : pkey) :
  k <> KStr "__proto__" ->
  lookup (own (fold_left (stage_step snap) ks acc)) k =
  if existsb (pkey_eqb k) ks && has_prop k snap
  then Some (get_prop snap k) else lookup (own acc) k.
Proof.
  intro Hk. revert acc. induction ks as [|k0 ks IH]; intro acc; simpl; [reflexivity|].
  rewrite IH. unfold stage_step.
  destruct (pkey_eqb k k0) eqn:E.
  - apply pkey_eqb_eq in E; subst. simpl.
    destruct (existsb (pkey_eqb k0) ks); simpl;
      destruct (has_prop k0 snap); try reflexivity.
    rewrite set_prop_other_key by exact Hk. apply lookup_js_set_same.
  - simpl. destruct (existsb (pkey_eqb k) ks && has_prop k snap); [reflexivity|].
    destruct (has_prop k0 snap); [|reflexivity].
    apply lookup_set_prop_other. intro; subst; rewrite pkey_eqb_refl in E; discriminate.
Qed.

Lemma stage_fold_nodup (snap acc : plain) (ks : list pkey) :
  NoDup (map fst (own acc)) -> NoDup (map fst (own (fold_left (stage_step snap) ks acc))).
Proof.
  revert acc. induction ks as [|k0 ks IH]; intros acc H; simpl; [assumption|].
  apply IH. unfold stage_step.
  destruct (has_prop k0 snap); [apply nodup_set_prop|]; assumption.
Qed.

Lemma stage_fold_keys (snap acc : plain) (ks : list pkey) (k : pkey) :
  In k (map fst (own (fold_left (stage_step snap) ks acc))) ->
  In k ks \/ In k (map fst (own acc)).
Proof.
  revert acc. induction ks as [|k0 ks IH]; intros acc H; simpl in *; [auto|].
  destruct (IH _ H) as [?|Hacc]; [auto|].
  unfold stage_step in Hacc. destruct (has_prop k0 snap); [|auto].
  apply in_keys_set_prop in Hacc. intuition.
Qed.

Lemma stage_nodup (snap : plain) (ks : list pkey) :
  NoDup (map fst (own (stage snap ks))).
Proof. rewrite stage_unfold. apply stage_fold_nodup. constructor. Qed.

(** The whole effect of [set(resetValues)] on a key other than
    ["__proto__"]. *)
Lemma lookup_after_stage (cur : obj) (snap : plain) (ks : list pkey) (k : pkey) :
  k <> KStr "__proto__" ->
  lookup (assign cur (own (stage snap ks))) k =
  if existsb (pkey_eqb k) ks && has_prop k snap
  then Some (get_prop snap k) else lookup cur k.
Proof.
  intro Hk. rewrite lookup_assign_nodup by apply stage_nodup.
  rewrite stage_unfold, stage_fold_lookup by exact Hk. simpl.
  destruct (existsb (pkey_eqb k) ks && has_prop k snap); reflexivity.
Qed.

(** [set(resetValues)] leaves every key that was not named as it was. *)
Lemma frame_after_stage (cur : obj) (snap : plain) (ks : list pkey) (k : pkey) :
  ~ In k ks -> lookup (assign cur (own (stage snap ks))) k = lookup cur k.
Proof.
  intro Hn. apply lookup_assign_frame. intro Hin.
  rewrite stage_unfold in Hin. apply stage_fold_keys in Hin.
  destruct Hin as [Hin|Hin]; [contradiction|simpl in Hin; contradiction].
Qed.

(** ** Lemmas on [initial_state] *)

Lemma initial_state_unfold (state : raw) (keys : list string) :
  initial_state state keys = fold_left (initial_step state) keys empty_plain.
Proof. reflexivity. Qed.

Lemma initial_fold_lookup (state : raw) (keys : list string) (acc : plain) (k : pkey) :
  k <> KStr "__proto__" ->
  lookup (own (fold_left (initial_step state) keys acc)) k =
  match k with
  | KStr s =>
      if existsb (String.eqb s) keys && negb (is_function (raw_field state s))
      then Some (raw_field state s) else lookup (own acc) k
  | KSym _ => lookup (own acc) k
  end.
Proof.
  intro Hk. revert acc. induction keys as [|s0 keys IH]; intro acc; simpl.
  - destruct k as [s|n]; [destruct (negb (is_function (raw_field state s)))|]; reflexivity.
  - rewrite IH. unfold initial_step.
    destruct k as [s|n].
    + destruct (String.eqb s s0) eqn:E.
      * apply String.eqb_eq in E; subst. simpl.
        destruct (existsb (String.eqb s0) keys);
          destruct (is_function (raw_field state s0)) eqn:F; simpl; try reflexivity.
        rewrite set_prop_other_key by exact Hk. apply lookup_js_set_same.
      * simpl. destruct (existsb (String.eqb s) keys && negb (is_function (raw_field state s)));
          [reflexivity|].
        destruct (negb (is_function (raw_field state s0))); [|reflexivity].
        apply lookup_set_prop_other. intro Heq; inversion Heq; subst.
        rewrite String.eqb_refl in E; discriminate.
    + destruct (negb (is_function (raw_field state s0))); [|reflexivity].
      apply lookup_set_prop_other; discriminate.
Qed.

Lemma initial_fold_nodup (state : raw) (keys : list string) (acc : plain) :
  NoDup (map fst (own acc)) ->
  NoDup (map fst (own (fold_left (initial_step state) keys acc))).
Proof.
  revert acc. induction keys as [|s0 keys IH]; intros acc H; simpl; [assumption|].
  apply IH. unfold initial_step. destruct (negb _); [apply nodup_set_prop|]; assumption.
Qed.

Lemma initial_state_nodup (state : raw) (keys : list string) :
  NoDup (map fst (own (initial_state state keys))).
Proof. rewrite initial_state_unfold. apply initial_fold_nodup. constructor. Qed.

(** Steps on keys other than ["__proto__"] keep the prototype and the own
    property ["__proto__"]. *)
Lemma initial_fold_other_keys (state : raw) (keys : list string) (acc : plain) :
  ~ In "__proto__" keys ->
  proto (fold_left (initial_step state) keys acc) = proto acc /\
  lookup (own (fold_left (initial_step state) keys acc)) (KStr "__proto__")
  = lookup (own acc) (KStr "__proto__").
Proof.
  revert acc. induction keys as [|s0 keys IH]; intros acc Hn; simpl; [auto|].
  assert (Hs0 : KStr s0 <> KStr "__proto__")
    by (intro Heq; inversion Heq; subst; apply Hn; left; reflexivity).
  destruct (IH (initial_step state acc s0)) as [P1 P2]; [intro; apply Hn; right; assumption|].
  rewrite P1, P2. unfold initial_step.
  destruct (negb (is_function (raw_field state s0))); [|auto].
  rewrite set_prop_other_key by exact Hs0. simpl.
  split; [reflexivity|]. apply lookup_js_set_other. congruence.
Qed.

(** When each key is processed once, the key ["__proto__"] reaches the
    setter of [Object.prototype]: the prototype becomes the field's value
    when it is a non-callable object or [null], and no own property
    ["__proto__"] is made. *)
Lemma initial_fold_proto (state : raw) (keys : list string) (acc : plain) :
  NoDup keys ->
  proto acc = VObjectPrototype ->
  lookup (own acc) (KStr "__proto__") = None ->
  lookup (own (fold_left (initial_step state) keys acc)) (KStr "__proto__") = None /\
  proto (fold_left (initial_step state) keys acc) =
  if existsb (String.eqb "__proto__") keys
  then let v := raw_field state "__proto__" in
       if negb (is_function v) && is_object_or_null v then v else VObjectPrototype
  else VObjectPrototype.
Proof.
  revert acc. induction keys as [|s0 keys IH]; intros acc Hnd Hp Ho;
    cbn [fold_left existsb]; [auto|].
  inversion Hnd as [|? ? Hnin Hnd']; subst.
  destruct (String.eqb "__proto__" s0) eqn:E.
  - apply String.eqb_eq in E. subst s0. cbn [orb].
    destruct (initial_fold_other_keys state keys (initial_step state acc "__proto__") Hnin)
      as [P1 P2].
    rewrite P1, P2. unfold initial_step, set_prop. rewrite Ho, Hp.
    destruct (is_function (raw_field state "__proto__")); simpl; [auto|].
    destruct (is_object_or_null (raw_field state "__proto__")); simpl; auto.
  - cbn [orb].
    assert (Hs0 : KStr s0 <> KStr "__proto__")
      by (intro Heq; inversion Heq; subst; rewrite String.eqb_refl in E; discriminate).
    apply IH; [exact Hnd'| |].
    + unfold initial_step. destruct (negb _); [|exact Hp].
      rewrite set_prop_other_key by exact Hs0. exact Hp.
    + unfold initial_step. destruct (negb _); [|exact Ho].
      rewrite set_prop_other_key by exact Hs0. simpl.
      rewrite lookup_js_set_other by congruence. exact Ho.
Qed.

(** The Initial Snapshot of an object Raw State: its own properties. *)
Lemma lookup_snapshot_of_obj (o : obj) (p : val) (k : pkey) :
  lookup (own (initial_state (RawObj o p) (string_keys o))) k =
  match k with
  | KStr s =>
      if String.eqb s "__proto__" then None
      else match lookup o k with
           | Some v => if is_function v then None else Some v
           | None => None
           end
  | KSym _ => None
  end.
Proof.
  destruct k as [s|n].
  - destruct (String.eqb s "__proto__") eqn:Es.
    + apply String.eqb_eq in Es; subst.
      rewrite initial_state_unfold.
      apply initial_fold_proto; [apply string_keys_nodup|reflexivity|reflexivity].
    + assert (Hk : KStr s <> KStr "__proto__")
        by (intro H; inversion H; subst; rewrite String.eqb_refl in Es; discriminate).
      rewrite initial_state_unfold, initial_fold_lookup by exact Hk.
      unfold raw_field.
      destruct (lookup o (KStr s)) as [v|] eqn:E.
      * rewrite (get_prop_own (mkPlain o p) _ _ E).
        replace (existsb (String.eqb s) (string_keys o)) with true.
        -- destruct (is_function v); reflexivity.
        -- symmetry. apply existsb_string_In, string_keys_In. eapply lookup_In; eauto.
      * replace (existsb (String.eqb s) (string_keys o)) with false; [reflexivity|].
        symmetry. destruct (existsb (String.eqb s) (string_keys o)) eqn:F; [|reflexivity].
        apply existsb_string_In, string_keys_In, lookup_In_exists in F.
        destruct F as [v Hv]. congruence.
  - rewrite initial_state_unfold, initial_fold_lookup by discriminate. reflexivity.
Qed.

(** The prototype of the Initial Snapshot of an object Raw State. *)
Lemma proto_snapshot_of_obj (o : obj) (p : val) :
  proto (initial_state (RawObj o p) (string_keys o)) =
  match lookup o (KStr "__proto__") with
  | Some v => if negb (is_function v) && is_object_or_null v then v else VObjectPrototype
  | None => VObjectPrototype
  end.
Proof.
  rewrite initial_state_unfold.
  destruct (initial_fold_proto (RawObj o p) (string_keys o) empty_plain
              (string_keys_nodup o) eq_refl eq_refl) as [_ ->].
  unfold raw_field.
  destruct (lookup o (KStr "__proto__")) as [v|] eqn:E.
  - rewrite (get_prop_own (mkPlain o p) _ _ E).
    replace (existsb (String.eqb "__proto__") (string_keys o)) with true; [reflexivity|].
    symmetry. apply existsb_string_In, string_keys_In. eapply lookup_In; eauto.
  - replace (existsb (String.eqb "__proto__") (string_keys o)) with false; [reflexivity|].
    symmetry. destruct (existsb (String.eqb "__proto__") (string_keys o)) eqn:F; [|reflexivity].
    apply existsb_string_In, string_keys_In, lookup_In_exists in F.
    destruct F as [v Hv]. congruence.
Qed.

(** ** Lemmas on the effects *)

Section Effects.

Variable user_fn : nat -> list arg -> obj -> Z -> result unit * (obj * Z).

Lemma call_fn_snapshot (f : val) (args : list arg) (w : world) :
  snapshot (snd (call_fn user_fn f args w)) = snapshot w.
Proof.
  unfold call_fn, bind, log; simpl.
  destruct f as [| | | | | | | |[id| | |]]; try reflexivity.
  unfold user_call; simpl. destruct (user_fn _ _ _ _) as [r [o' e']]. reflexivity.
Qed.

Lemma run_op_snapshot (o : op) (w : world) :
  snapshot (snd (run_op user_fn o w)) = snapshot w.
Proof.
  destruct o as [p|n a]; simpl; [reflexivity|].
  unfold call_field, bind, zget_field. apply call_fn_snapshot.
Qed.

Lemma run_ops_snapshot (ops : list op) (w : world) :
  snapshot (run_ops user_fn ops w) = snapshot w.
Proof.
  revert w. induction ops as [|o ops IH]; intro w; simpl; [reflexivity|].
  rewrite IH. apply run_op_snapshot.
Qed.

(** Calling the default [resetStore]. *)
Lemma call_default_reset_store (args : list arg) (w : world) :
  call_fn user_fn (VFun FDefaultResetStore) args w =
  (Ok tt, mkWorld (Some (assign (current w) (own (snapshot w)))) (snapshot w) (ext w)
                  ((trace w ++ [ECall (VFun FDefaultResetStore)])
                   ++ [ESet (own (snapshot w))])).
Proof. reflexivity. Qed.

(** Calling the default [resetState]. *)
Lemma call_default_reset_state (args : list arg) (w : world) :
  call_fn user_fn (VFun FDefaultResetState) args w =
  (Ok tt, mkWorld (Some (assign (current w) (own (stage (snapshot w) (flat args)))))
                  (snapshot w) (ext w)
                  ((trace w ++ [ECall (VFun FDefaultResetState)])
                   ++ [ESet (own (stage (snapshot w) (flat args)))])).
Proof. reflexivity. Qed.

Lemma call_field_unfold (name : string) (args : list arg) (w : world) :
  call_field user_fn name args w = call_fn user_fn (js_get (current w) (KStr name)) args w.
Proof. reflexivity. Qed.

End Effects.

(** Construction from an object. *)
Lemma createWithReset_obj (createState : initializer) (w0 : world) (o : obj) (p : val)
    (e1 : Z) :
  createState (ext w0) = (Ok (RawObj o p), e1) ->
  createWithReset createState w0 =
  (Ok tt,
   mkWorld
     (Some (js_set (js_set (assign [] o)
              (KStr "resetStore")
              (if has_prop (KStr "resetStore") (mkPlain o p) &&
                  is_function (get_prop (mkPlain o p) (KStr "resetStore"))
               then get_prop (mkPlain o p) (KStr "resetStore") else VFun FDefaultResetStore))
            (KStr "resetState")
            (if has_prop (KStr "resetState") (mkPlain o p) &&
                is_function (get_prop (mkPlain o p) (KStr "resetState"))
             then get_prop (mkPlain o p) (KStr "resetState") else VFun FDefaultResetState)))
     (initial_state (RawObj o p) (string_keys o)) e1
     (((trace w0 ++ [EInit]) ++ [EAlloc FDefaultResetStore]) ++ [EAlloc FDefaultResetState])).
Proof.
  intro H. unfold createWithReset, call_initializer, bind, log. simpl.
  rewrite H. simpl.
  unfold user_defined, raw_field, bind, ret. simpl.
  destruct (has_prop (KStr "resetStore") (mkPlain o p)),
           (has_prop (KStr "resetState") (mkPlain o p)); reflexivity.
Qed.

Lemma createWithReset_prim (createState : initializer) (w0 : world) (p : prim) (e1 : Z) :
  createState (ext w0) = (Ok (RawPrim p), e1) ->
  createWithReset createState w0 =
  (Throw type_error, mkWorld (store w0) (snapshot w0) e1 (trace w0 ++ [EInit])).
Proof.
  intro H. unfold createWithReset, call_initializer, bind, log. simpl.
  rewrite H. destruct p; reflexivity.
Qed.

Lemma createWithReset_throw (createState : initializer) (w0 : world) (e : exn) (e1 : Z) :
  createState (ext w0) = (Throw e, e1) ->
  createWithReset createState w0 =
  (Throw e, mkWorld (store w0) (snapshot w0) e1 (trace w0 ++ [EInit])).
Proof.
  intro H. unfold createWithReset, call_initializer, bind, log. simpl.
  rewrite H. reflexivity.
Qed.

Lemma createWithReset_ok_inv (createState : initializer) (w0 w1 : world) :
  createWithReset createState w0 = (Ok tt, w1) ->
  exists o p, snapshot w1 = initial_state (RawObj o p) (string_keys o).
Proof.
  destruct (createState (ext w0)) as [[[o p|p]|e] e1] eqn:H.
  - rewrite (createWithReset_obj _ _ _ _ _ H). intro E; inversion E; subst.
    exists o, p; reflexivity.
  - rewrite (createWithReset_prim _ _ _ _ H). discriminate.
  - rewrite (createWithReset_throw _ _ _ _ H). discriminate.
Qed.

Lemma createWithReset_snapshot_nodup (createState : initializer) (w0 w1 : world) :
  createWithReset createState w0 = (Ok tt, w1) -> NoDup (map fst (own (snapshot w1))).
Proof.
  intro H. destruct (createWithReset_ok_inv _ _ _ H) as [o [p ->]].
  apply initial_state_nodup.
Qed.

(** The Initial Snapshot never has an own property ["__proto__"]. *)
Lemma createWithReset_snapshot_no_proto_key (createState : initializer) (w0 w1 : world) :
  createWithReset createState w0 = (Ok tt, w1) ->
  lookup (own (snapshot w1)) (KStr "__proto__") = None.
Proof.
  intro H. destruct (createWithReset_ok_inv _ _ _ H) as [o [p ->]].
  rewrite lookup_snapshot_of_obj. reflexivity.
Qed.

Lemma snapshot_key_not_proto (createState : initializer) (w0 w1 : world) (k : pkey) (v : val) :
  createWithReset createState w0 = (Ok tt, w1) ->
  lookup (own (snapshot w1)) k = Some v -> k <> KStr "__proto__".
Proof.
  intros H Hk ->. rewrite (createWithReset_snapshot_no_proto_key _ _ _ H) in Hk. discriminate.
Qed.

Lemma lookup_after_snapshot_merge (cur : obj) (snap : plain) (k : pkey) :
  NoDup (map fst (own snap)) ->
  lookup (assign cur (own snap)) k =
  match lookup (own snap) k with Some v => Some v | None => lookup cur k end.
Proof. apply lookup_assign_nodup. Qed.

Lemma produced_state_lookup_other (o : obj) (a b : val) (k : pkey) :
  NoDup (map fst o) -> k <> KStr "resetStore" -> k <> KStr "resetState" ->
  lookup (js_set (js_set (assign [] o) (KStr "resetStore") a) (KStr "resetState") b) k
  = lookup o k.
Proof.
  intros Hnd H1 H2.
  rewrite !lookup_js_set_other by assumption.
  rewrite lookup_assign_nodup by exact Hnd.
  destruct (lookup o k); reflexivity.
Qed.

Lemma produced_state_lookup_resetStore (o : obj) (a b : val) :
  lookup (js_set (js_set (assign [] o) (KStr "resetStore") a) (KStr "resetState") b)
    (KStr "resetStore") = Some a.
Proof.
  rewrite lookup_js_set_other by discriminate. apply lookup_js_set_same.
Qed.

Lemma produced_state_lookup_resetState (o : obj) (a b : val) :
  lookup (js_set (js_set (assign [] o) (KStr "resetStore") a) (KStr "resetState") b)
    (KStr "resetState") = Some b.
Proof. apply lookup_js_set_same. Qed.

Lemma reset_fields_intact_step
    (user_fn : nat -> list arg -> obj -> Z -> result unit * (obj * Z))
    (w : world) (n : string) (a : list arg) :
  n = "resetStore" \/ n = "resetState" ->
  reset_fields_intact w ->
  reset_fields_intact (snd (run_op user_fn (OpCall n a) w)).
Proof.
  intros Hn [S1 [S2 [C1 C2]]]. cbn [run_op]. rewrite call_field_unfold.
  destruct Hn as [-> | ->].
  - rewrite (js_get_own _ _ _ C1), call_default_reset_store.
    unfold reset_fields_intact; cbn [snd current store snapshot].
    rewrite !lookup_assign_frame
      by (apply not_in_of_lookup_none, has_prop_none; assumption).
    auto.
  - rewrite (js_get_own _ _ _ C2), call_default_reset_state.
    unfold reset_fields_intact; cbn [snd current store snapshot].
    rewrite !lookup_after_stage by discriminate.
    rewrite S1, S2, !andb_false_r. auto.
Qed.

(** ** The claims *)

(** C1: after the injected default [resetStore] of a store built by
    [createWithReset] is called, whatever operations came before, every key
    of the Initial Snapshot holds exactly (the same reference as) its
    snapshotted value. *)
Theorem resetStore_restores_snapshot
    (user_fn : nat -> list arg -> obj -> Z -> result unit * (obj * Z))
    (createState : initializer) (w0 w1 : world) (ops : list op) :
  createWithReset createState w0 = (Ok tt, w1) ->
  js_get (current (run_ops user_fn ops w1)) (KStr "resetStore") = VFun FDefaultResetStore ->
  let '(r, w3) := call_field user_fn "resetStore" [] (run_ops user_fn ops w1) in
  r = Ok tt /\
  forall k v, lookup (own (snapshot w1)) k = Some v -> lookup (current w3) k = Some v.
Proof.
  intros Hc Hf.
  rewrite call_field_unfold, Hf, call_default_reset_store. split; [reflexivity|].
  intros k v Hk. cbn [current store].
  rewrite run_ops_snapshot.
  rewrite lookup_assign_nodup by (eapply createWithReset_snapshot_nodup; eauto).
  rewrite Hk. reflexivity.
Qed.

(** C2: the injected default [resetState] sets every named key that is in
    the Initial Snapshot to its snapshotted value and leaves every field
    that is not named with its value before the call. *)
Theorem resetState_resets_named_keeps_others
    (user_fn : nat -> list arg -> obj -> Z -> result unit * (obj * Z))
    (createState : initializer) (w0 w1 : world) (ops : list op) (args : list arg) :
  createWithReset createState w0 = (Ok tt, w1) ->
  js_get (current (run_ops user_fn ops w1)) (KStr "resetState") = VFun FDefaultResetState ->
  let w2 := run_ops user_fn ops w1 in
  let '(r, w3) := call_field user_fn "resetState" args w2 in
  r = Ok tt /\
  (forall k v, In k (flat args) -> lookup (own (snapshot w1)) k = Some v ->
               lookup (current w3) k = Some v) /\
  (forall k, ~ In k (flat args) -> lookup (current w3) k = lookup (current w2) k).
Proof.
  intros Hc Hf. cbv zeta.
  rewrite call_field_unfold, Hf, call_default_reset_state.
  split; [reflexivity|]. cbn [current store snapshot].
  rewrite run_ops_snapshot. split.
  - intros k v Hin Hk.
    rewrite lookup_after_stage by (eapply snapshot_key_not_proto; eauto).
    apply existsb_pkey_In in Hin.
    rewrite Hin, (has_prop_own _ _ _ Hk), (get_prop_own _ _ _ Hk). reflexivity.
  - intros k Hn. apply frame_after_stage. exact Hn.
Qed.

(** C3 (as the code does it): when the Initializer returns a primitive
    (null, undefined, a boolean, number, string or symbol), construction
    throws synchronously inside the wrapper; the error is the engine's
    TypeError (from [Object.keys] or from the [in] operator), and no store
    is produced: the store, the snapshot and the closures are untouched and
    the only event is the single Initializer call. *)
Theorem createWithReset_rejects_primitive
    (createState : initializer) (w0 : world) (p : prim) (e1 : Z) :
  createState (ext w0) = (Ok (RawPrim p), e1) ->
  createWithReset createState w0 =
  (Throw (JsError "TypeError"),
   mkWorld (store w0) (snapshot w0) e1 (trace w0 ++ [EInit])).
Proof. apply createWithReset_prim. Qed.

(** C3, as stated, fails: an Initializer returning [null] makes construction
    throw a TypeError, not an InvalidStateShapeError. *)
Lemma createWithReset_null_not_InvalidStateShapeError :
  fst (createWithReset (fun e => (Ok (RawPrim PNull), e)) empty_world)
  <> Throw (JsError "InvalidStateShapeError").
Proof. vm_compute. intro H; inversion H. Qed.

(** C8: when the Initializer throws, construction throws the same value;
    the Initializer was invoked exactly once, no closure is made and no
    store is produced. *)
Theorem createWithReset_propagates_initializer_throw
    (createState : initializer) (w0 : world) (e : exn) (e1 : Z) :
  createState (ext w0) = (Throw e, e1) ->
  createWithReset createState w0 =
  (Throw e, mkWorld (store w0) (snapshot w0) e1 (trace w0 ++ [EInit])).
Proof. apply createWithReset_throw. Qed.

(** C10: the default [resetState] called with no argument issues one
    [set] of the empty object and leaves the state as it was. *)
Theorem resetState_no_arguments_is_noop
    (user_fn : nat -> list arg -> obj -> Z -> result unit * (obj * Z)) (w : world) :
  js_get (current w) (KStr "resetState") = VFun FDefaultResetState ->
  call_field user_fn "resetState" [] w =
  (Ok tt, mkWorld (Some (current w)) (snapshot w) (ext w)
                  (trace w ++ [ECall (VFun FDefaultResetState); ESet []])).
Proof.
  intro Hf. rewrite call_field_unfold, Hf, call_default_reset_state.
  rewrite <- app_assoc. reflexivity.
Qed.



(** C4, as stated, fails: when the user supplies a callable [resetStore],
    the store exposes it, yet construction still creates the default
    [resetStore] closure (line 92 runs unconditionally), and the default
    [resetState] as well. *)
Lemma user_resetStore_default_still_constructed :
  let o := [(KStr "count", VNum 0); (KStr "resetStore", VFun (FUser 7))] in
  let w1 := snd (createWithReset (fun e => (Ok (RawObj o VObjectPrototype), e))
                                 empty_world) in
  js_get (current w1) (KStr "resetStore") = VFun (FUser 7) /\
  trace w1 = [EInit; EAlloc FDefaultResetStore; EAlloc FDefaultResetState].
Proof. vm_compute. split; reflexivity. Qed.

(** C9: a non-callable [resetStore] of Raw State is replaced by the default
    in the produced state but kept in the Initial Snapshot, so calling the
    default writes the non-callable value back over it. *)
Theorem non_callable_resetStore_restored_over_default
    (user_fn : nat -> list arg -> obj -> Z -> result unit * (obj * Z))
    (createState : initializer) (w0 : world) (o : obj) (p : val) (e1 : Z) (v : val) :
  createState (ext w0) = (Ok (RawObj o p), e1) ->
  lookup o (KStr "resetStore") = Some v ->
  is_function v = false ->
  exists w1,
    createWithReset createState w0 = (Ok tt, w1) /\
    js_get (current w1) (KStr "resetStore") = VFun FDefaultResetStore /\
    lookup (own (snapshot w1)) (KStr "resetStore") = Some v /\
    let '(r, w2) := call_field user_fn "resetStore" [] w1 in
    r = Ok tt /\
    lookup (current w2) (KStr "resetStore") = Some v /\
    is_function (js_get (current w2) (KStr "resetStore")) = false.
Proof.
  intros Hc Ho Hv.
  assert (Hget : get_prop (mkPlain o p) (KStr "resetStore") = v)
    by exact (get_prop_own (mkPlain o p) _ _ Ho).
  assert (Hsnap : lookup (own (initial_state (RawObj o p) (string_keys o)))
                    (KStr "resetStore") = Some v)
    by (rewrite lookup_snapshot_of_obj, Ho, Hv; reflexivity).
  assert (Hnd := initial_state_nodup (RawObj o p) (string_keys o)).
  rewrite (createWithReset_obj _ _ _ _ _ Hc), Hget, Hv, andb_false_r.
  eexists. split; [reflexivity|].
  cbn [current store snapshot].
  rewrite (js_get_own _ _ _ (produced_state_lookup_resetStore _ _ _)).
  split; [reflexivity|]. split; [exact Hsnap|].
  rewrite call_field_unfold. cbn [current store].
  rewrite (js_get_own _ _ _ (produced_state_lookup_resetStore _ _ _)), call_default_reset_store.
  cbn [current store snapshot].
  split; [reflexivity|].
  rewrite lookup_assign_nodup by exact Hnd. rewrite Hsnap. split; [reflexivity|].
  unfold js_get, get_prop, find_prop. cbn [own].
  rewrite lookup_assign_nodup by exact Hnd. rewrite Hsnap. exact Hv.
Qed.

(** C7, as stated, fails: the Initial Snapshot misses data fields of Raw
    State.  [Object.keys] leaves out a field under a symbol key; and a
    field named ["__proto__"] (an own property, as [JSON.parse] makes it)
    is assigned at line 83 through the setter of Object.prototype, so it
    becomes the snapshot's prototype, not one of its keys, and the fields
    of that object become visible to [in] on the snapshot. *)
Lemma initial_snapshot_misses_data_fields :
  let o1 := [(KStr "count", VNum 0); (KSym 0, VNum 1)] in
  let s1 := snapshot (snd (createWithReset (fun e => (Ok (RawObj o1 VObjectPrototype), e))
                                           empty_world)) in
  let X := VObj 1 [(KStr "a", VNum 1)] VObjectPrototype in
  let o2 := [(KStr "__proto__", X); (KStr "count", VNum 0)] in
  let s2 := snapshot (snd (createWithReset (fun e => (Ok (RawObj o2 VObjectPrototype), e))
                                           empty_world)) in
  lookup o1 (KSym 0) = Some (VNum 1) /\
  ~ In (KSym 0) (map fst (own s1)) /\
  lookup o2 (KStr "__proto__") = Some X /\
  ~ In (KStr "__proto__") (map fst (own s2)) /\
  proto s2 = X /\
  has_prop (KStr "a") s2 = true.
Proof.
  vm_compute. split; [reflexivity|]. split; [intuition discriminate|].
  split; [reflexivity|]. split; [intuition discriminate|].
  split; reflexivity.
Qed.

(** C6: on the test suite's counter store, [resetState("toString")] is not
    a no-op: ["toString"] is not in the Initial Snapshot, but
    [key in initialState] also sees the method inherited from
    Object.prototype, so it is staged and written into the state as a new
    own field. *)
Lemma resetState_toString_adds_own_field :
  let w1 := snd (createWithReset (fun e => (Ok counter_raw, e)) empty_world) in
  let w2 := snd (call_field counter_fn "resetState" [AOne (KStr "toString")] w1) in
  fst (call_field counter_fn "resetState" [AOne (KStr "toString")] w1) = Ok tt /\
  lookup (own (snapshot w1)) (KStr "toString") = None /\
  lookup (current w1) (KStr "toString") = None /\
  lookup (current w2) (KStr "toString") = Some (VFun (FBuiltin "toString")) /\
  current w2 <> current w1.
Proof.
  vm_compute. split; [reflexivity|]. split; [reflexivity|]. split; [reflexivity|].
  split; [reflexivity|]. intro H; inversion H.
Qed.

(** ** Further properties of [createWithReset] and its default resets *)

(** Calling the default [resetState] closure twice with the same names leaves
    every key as one call does. *)
Theorem resetState_idempotent
    (user_fn : nat -> list arg -> obj -> Z -> result unit * (obj * Z))
    (args : list arg) (w : world) (k : pkey) :
  let w1 := snd (call_fn user_fn (VFun FDefaultResetState) args w) in
  let w2 := snd (call_fn user_fn (VFun FDefaultResetState) args w1) in
  lookup (current w2) k = lookup (current w1) k.
Proof.
  cbv zeta. rewrite !call_default_reset_state. cbn [snd current store snapshot].
  apply lookup_assign_twice, stage_nodup.
Qed.


(** On a store built by [createWithReset], whatever operations came before,
    calling the default [resetStore] twice leaves every key as one call does. *)
Theorem resetStore_idempotent
    (user_fn : nat -> list arg -> obj -> Z -> result unit * (obj * Z))
    (createState : initializer) (w0 w1 : world) (ops : list op) :
  createWithReset createState w0 = (Ok tt, w1) ->
  let w := run_ops user_fn ops w1 in
  let w2 := snd (call_fn user_fn (VFun FDefaultResetStore) [] w) in
  let w3 := snd (call_fn user_fn (VFun FDefaultResetStore) [] w2) in
  forall k, lookup (current w3) k = lookup (current w2) k.
Proof.
  intros Hc w w2 w3 k. subst w w2 w3. rewrite !call_default_reset_store.
  cbn [snd current store snapshot].
  apply lookup_assign_twice.
  rewrite run_ops_snapshot. eapply createWithReset_snapshot_nodup; eauto.
Qed.

(** On a store built by [createWithReset], [resetState] named with every key
    of the Initial Snapshot leaves every key as [resetStore] does. *)
Theorem resetState_all_snapshot_keys_is_resetStore
    (user_fn : nat -> list arg -> obj -> Z -> result unit * (obj * Z))
    (createState : initializer) (w0 w1 : world) (ops : list op) :
  createWithReset createState w0 = (Ok tt, w1) ->
  let w := run_ops user_fn ops w1 in
  let w2 := snd (call_fn user_fn (VFun FDefaultResetState)
                   [AMany (map fst (own (snapshot w1)))] w) in
  let w3 := snd (call_fn user_fn (VFun FDefaultResetStore) [] w) in
  forall k, lookup (current w2) k = lookup (current w3) k.
Proof.
  intros Hc w w2 w3 k. subst w w2 w3.
  rewrite call_default_reset_state, call_default_reset_store.
  cbn [snd current store snapshot]. rewrite !run_ops_snapshot.
  assert (Hnd : NoDup (map fst (own (snapshot w1))))
    by (eapply createWithReset_snapshot_nodup; eauto).
  rewrite (lookup_after_snapshot_merge (current (run_ops user_fn ops w1)) (snapshot w1) k Hnd).
  destruct (lookup (own (snapshot w1)) k) as [v|] eqn:E.
  - rewrite lookup_after_stage by (eapply snapshot_key_not_proto; eauto).
    replace (existsb (pkey_eqb k) (flat [AMany (map fst (own (snapshot w1)))])) with true.
    + rewrite (has_prop_own _ _ _ E), (get_prop_own _ _ _ E). reflexivity.
    + symmetry. apply existsb_pkey_In. simpl. rewrite app_nil_r.
      eapply lookup_In; eauto.
  - apply frame_after_stage. simpl. rewrite app_nil_r.
    apply not_in_of_lookup_none. exact E.
Qed.

(** Construction keeps every own field of Raw State other than the two
    reserved names, with the same value (the spread of line 109). *)
Theorem createWithReset_keeps_user_fields
    (createState : initializer) (w0 : world) (o : obj) (p : val) (e1 : Z) :
  createState (ext w0) = (Ok (RawObj o p), e1) ->
  NoDup (map fst o) ->
  exists w1,
    createWithReset createState w0 = (Ok tt, w1) /\
    forall k, k <> KStr "resetStore" -> k <> KStr "resetState" ->
              lookup (current w1) k = lookup o k.
Proof.
  intros Hc Hnd. rewrite (createWithReset_obj _ _ _ _ _ Hc). eexists. split; [reflexivity|].
  intros k H1 H2. unfold current; cbn [store].
  apply produced_state_lookup_other; assumption.
Qed.

(** After any operations, the default [resetStore] leaves untouched every
    key that was not an own data field of Raw State: its behaviour fields
    and keys that were added after construction. *)
Theorem resetStore_keeps_behaviour_and_new_fields
    (user_fn : nat -> list arg -> obj -> Z -> result unit * (obj * Z))
    (createState : initializer) (w0 : world) (o : obj) (p : val) (e1 : Z) :
  createState (ext w0) = (Ok (RawObj o p), e1) ->
  exists w1,
    createWithReset createState w0 = (Ok tt, w1) /\
    forall ops k,
      (lookup o k = None \/ exists f, lookup o k = Some f /\ is_function f = true) ->
      let w := run_ops user_fn ops w1 in
      lookup (current (snd (call_fn user_fn (VFun FDefaultResetStore) [] w))) k
      = lookup (current w) k.
Proof.
  intro Hc. rewrite (createWithReset_obj _ _ _ _ _ Hc). eexists. split; [reflexivity|].
  intros ops k Hk. cbv zeta. rewrite call_default_reset_store.
  cbn [snd current store]. rewrite run_ops_snapshot. cbn [snapshot].
  rewrite lookup_assign_frame; [reflexivity|].
  apply not_in_of_lookup_none. rewrite lookup_snapshot_of_obj.
  destruct k as [s|n]; [|reflexivity].
  destruct (String.eqb s "__proto__"); [reflexivity|].
  destruct Hk as [-> | [f [-> Hf]]]; [reflexivity|]. rewrite Hf. reflexivity.
Qed.

(** Right after construction from a Raw State without duplicate keys and
    without a non-callable field under a reserved name, the default
    [resetStore] changes no key. *)
Theorem resetStore_after_construction_is_noop
    (user_fn : nat -> list arg -> obj -> Z -> result unit * (obj * Z))
    (createState : initializer) (w0 : world) (o : obj) (p : val) (e1 : Z) :
  createState (ext w0) = (Ok (RawObj o p), e1) ->
  NoDup (map fst o) ->
  (forall n v, (n = "resetStore" \/ n = "resetState") ->
               lookup o (KStr n) = Some v -> is_function v = true) ->
  exists w1,
    createWithReset createState w0 = (Ok tt, w1) /\
    forall k, lookup (current (snd (call_fn user_fn (VFun FDefaultResetStore) [] w1))) k
              = lookup (current w1) k.
Proof.
  intros Hc Hnd Hres. rewrite (createWithReset_obj _ _ _ _ _ Hc). eexists. split; [reflexivity|].
  intro k. rewrite call_default_reset_store. cbn [snd current store snapshot].
  rewrite lookup_after_snapshot_merge by apply initial_state_nodup.
  destruct (lookup (own (initial_state (RawObj o p) (string_keys o))) k) as [v|] eqn:E;
    [|reflexivity].
  rewrite lookup_snapshot_of_obj in E.
  destruct k as [s|n]; [|discriminate].
  destruct (String.eqb s "__proto__"); [discriminate|].
  destruct (lookup o (KStr s)) as [v'|] eqn:Eo; [|discriminate].
  destruct (is_function v') eqn:F; [discriminate|]. inversion E; subst v'.
  assert (Hne : forall n, (n = "resetStore" \/ n = "resetState") -> KStr s <> KStr n).
  { intros n Hn Heq. inversion Heq; subst s.
    rewrite (Hres n v Hn Eo) in F. discriminate. }
  rewrite produced_state_lookup_other; [symmetry; exact Eo|exact Hnd|apply Hne; auto..].
Qed.

(** When [in] finds neither reserved name on Raw State and Raw State has no
    own field ["__proto__"], both default reset fields stay in place, as
    the defaults, through any sequence of calls of [resetStore] and
    [resetState]: neither name is found by [in] on the Initial Snapshot,
    so no reset overwrites it. *)
Theorem default_reset_fields_survive_resets
    (user_fn : nat -> list arg -> obj -> Z -> result unit * (obj * Z))
    (createState : initializer) (w0 : world) (o : obj) (p : val) (e1 : Z) :
  createState (ext w0) = (Ok (RawObj o p), e1) ->
  has_prop (KStr "resetStore") (mkPlain o p) = false ->
  has_prop (KStr "resetState") (mkPlain o p) = false ->
  lookup o (KStr "__proto__") = None ->
  exists w1,
    createWithReset createState w0 = (Ok tt, w1) /\
    forall ops,
      Forall (fun op => exists n a, op = OpCall n a /\
                                    (n = "resetStore" \/ n = "resetState")) ops ->
      js_get (current (run_ops user_fn ops w1)) (KStr "resetStore") = VFun FDefaultResetStore /\
      js_get (current (run_ops user_fn ops w1)) (KStr "resetState") = VFun FDefaultResetState.
Proof.
  intros Hc H1 H2 HP.
  pose proof (has_prop_none _ _ H1) as O1. pose proof (has_prop_none _ _ H2) as O2.
  cbn [own] in O1, O2.
  rewrite (createWithReset_obj _ _ _ _ _ Hc). eexists. split; [reflexivity|].
  intros ops Hops.
  assert (Hinv : forall w, reset_fields_intact w -> reset_fields_intact (run_ops user_fn ops w)).
  { induction Hops as [|op ops [n [a [-> Hn]]] Hops IH]; intros w Hw; [exact Hw|].
    cbn [run_ops]. apply IH, reset_fields_intact_step; assumption. }
  match goal with
  | |- context [run_ops user_fn ops ?w] => assert (H0 : reset_fields_intact w)
  end.
  { unfold reset_fields_intact; cbn [current store snapshot].
    rewrite produced_state_lookup_resetStore, produced_state_lookup_resetState, H1, H2.
    cbn [andb]. unfold has_prop, find_prop.
    rewrite !lookup_snapshot_of_obj, proto_snapshot_of_obj, HP.
    replace (String.eqb "resetStore" "__proto__") with false by reflexivity.
    replace (String.eqb "resetState" "__proto__") with false by reflexivity.
    rewrite O1, O2. repeat split; reflexivity. }
  destruct (Hinv _ H0) as [_ [_ [C1 C2]]].
  split; apply js_get_own; assumption.
Qed.

(** When Raw State has its own callable field [resetStore] (or
    [resetState]), the produced state holds that callable unchanged under
    the name, and calling the store's field runs the user's
    implementation and nothing of the default. *)
Theorem user_reset_field_used_verbatim
    (user_fn : nat -> list arg -> obj -> Z -> result unit * (obj * Z))
    (createState : initializer) (w0 : world) (o : obj) (p : val) (e1 : Z)
    (name : string) (id : nat) :
  name = "resetStore" \/ name = "resetState" ->
  createState (ext w0) = (Ok (RawObj o p), e1) ->
  lookup o (KStr name) = Some (VFun (FUser id)) ->
  exists w1,
    createWithReset createState w0 = (Ok tt, w1) /\
    js_get (current w1) (KStr name) = VFun (FUser id) /\
    (forall args w,
       js_get (current w) (KStr name) = VFun (FUser id) ->
       call_field user_fn name args w =
       user_call user_fn id args
         (mkWorld (store w) (snapshot w) (ext w) (trace w ++ [ECall (VFun (FUser id))]))).
Proof.
  intros Hname Hc Ho.
  rewrite (createWithReset_obj _ _ _ _ _ Hc). eexists. split; [reflexivity|].
  assert (Hin : has_prop (KStr name) (mkPlain o p) = true) by exact (has_prop_own (mkPlain o p) _ _ Ho).
  assert (Hget : get_prop (mkPlain o p) (KStr name) = VFun (FUser id))
    by exact (get_prop_own (mkPlain o p) _ _ Ho).
  split.
  - unfold current; cbn [store]. apply js_get_own.
    destruct Hname as [-> | ->]; rewrite Hin, Hget; cbn [andb is_function].
    + apply produced_state_lookup_resetStore.
    + apply produced_state_lookup_resetState.
  - intros args w Hf. rewrite call_field_unfold, Hf. reflexivity.
Qed.

(** The Initial Snapshot of an object Raw State: its own properties are
    exactly the string-keyed own fields of Raw State with a non-callable
    value, bar ["__proto__"]; its prototype is the value of an own field
    ["__proto__"] when that is a non-callable object or [null], and
    Object.prototype otherwise; no later operation on the store changes it. *)
Theorem initial_snapshot_characterisation
    (createState : initializer) (w0 : world) (o : obj) (p : val) (e1 : Z) :
  createState (ext w0) = (Ok (RawObj o p), e1) ->
  exists w1,
    createWithReset createState w0 = (Ok tt, w1) /\
    (forall k v, lookup (own (snapshot w1)) k = Some v <->
                 exists s, k = KStr s /\ s <> "__proto__" /\
                           lookup o k = Some v /\ is_function v = false) /\
    proto (snapshot w1) =
      match lookup o (KStr "__proto__") with
      | Some v => if negb (is_function v) && is_object_or_null v then v else VObjectPrototype
      | None => VObjectPrototype
      end /\
    (forall (user_fn : nat -> list arg -> obj -> Z -> result unit * (obj * Z)) ops,
       snapshot (run_ops user_fn ops w1) = snapshot w1).
Proof.
  intro Hc. rewrite (createWithReset_obj _ _ _ _ _ Hc). eexists. split; [reflexivity|].
  cbn [snapshot]. split; [|split].
  - intros k v. rewrite lookup_snapshot_of_obj. destruct k as [s|n].
    + destruct (String.eqb s "__proto__") eqn:E.
      * apply String.eqb_eq in E. subst s. split; [discriminate|].
        intros [s' [Hs [Hne _]]]. inversion Hs; subst. contradiction.
      * assert (Hne : s <> "__proto__")
          by (intro; subst; rewrite String.eqb_refl in E; discriminate).
        destruct (lookup o (KStr s)) as [v'|] eqn:Eo.
        -- destruct (is_function v') eqn:F.
           ++ split; [discriminate|]. intros [s' [Hs [_ [Hl Hf]]]].
              inversion Hs; subst. congruence.
           ++ split.
              ** intro H. inversion H; subst. exists s. auto.
              ** intros [s' [Hs [_ [Hl _]]]]. inversion Hs; subst. congruence.
        -- split; [discriminate|]. intros [s' [Hs [_ [Hl _]]]].
           inversion Hs; subst. congruence.
    + split; [discriminate|]. intros [s [Hs _]]. discriminate.
  - apply proto_snapshot_of_obj.
  - intros user_fn ops. apply run_ops_snapshot.
Qed.

(** ** Witnesses: the theorems applied to concrete stores *)

Lemma resetStore_restores_snapshot_witness :
  let w1 := snd (createWithReset (fun e => (Ok counter_raw, e)) empty_world) in
  let ops := [OpCall "increment" []; OpSetState [(KStr "secondaryCount", VNum 15)]] in
  createWithReset (fun e => (Ok counter_raw, e)) empty_world = (Ok tt, w1) /\
  js_get (current (run_ops counter_fn ops w1)) (KStr "resetStore") = VFun FDefaultResetStore /\
  let '(r, w3) := call_field counter_fn "resetStore" [] (run_ops counter_fn ops w1) in
  r = Ok tt /\
  forall k v, lookup (own (snapshot w1)) k = Some v -> lookup (current w3) k = Some v.
Proof.
  intros w1 ops. split; [reflexivity|]. split; [reflexivity|].
  apply (resetStore_restores_snapshot counter_fn (fun e => (Ok counter_raw, e))
           empty_world w1 ops); reflexivity.
Defined.

Lemma resetState_resets_named_keeps_others_witness :
  let w1 := snd (createWithReset (fun e => (Ok counter_raw, e)) empty_world) in
  let ops := [OpSetState [(KStr "count", VNum 5); (KStr "secondaryCount", VNum 15)]] in
  let args := [AOne (KStr "count")] in
  createWithReset (fun e => (Ok counter_raw, e)) empty_world = (Ok tt, w1) /\
  js_get (current (run_ops counter_fn ops w1)) (KStr "resetState") = VFun FDefaultResetState /\
  let w2 := run_ops counter_fn ops w1 in
  let '(r, w3) := call_field counter_fn "resetState" args w2 in
  r = Ok tt /\
  (forall k v, In k (flat args) -> lookup (own (snapshot w1)) k = Some v ->
               lookup (current w3) k = Some v) /\
  (forall k, ~ In k (flat args) -> lookup (current w3) k = lookup (current w2) k).
Proof.
  intros w1 ops args. split; [reflexivity|]. split; [reflexivity|].
  apply (resetState_resets_named_keeps_others counter_fn (fun e => (Ok counter_raw, e))
           empty_world w1 ops args); reflexivity.
Defined.

Lemma createWithReset_rejects_primitive_witness :
  (fun (e : Z) => (Ok (RawPrim PNull), e)) (ext empty_world) = (Ok (RawPrim PNull), 0%Z) /\
  createWithReset (fun e => (Ok (RawPrim PNull), e)) empty_world =
  (Throw (JsError "TypeError"),
   mkWorld (store empty_world) (snapshot empty_world) 0 (trace empty_world ++ [EInit])).
Proof.
  split; [reflexivity|].
  apply (createWithReset_rejects_primitive (fun e => (Ok (RawPrim PNull), e))
           empty_world PNull 0); reflexivity.
Defined.

Lemma createWithReset_propagates_initializer_throw_witness :
  (fun (e : Z) => (@Throw raw (UserThrow 3), (e + 1)%Z)) (ext empty_world)
  = (Throw (UserThrow 3), 1%Z) /\
  createWithReset (fun e => (Throw (UserThrow 3), (e + 1)%Z)) empty_world =
  (Throw (UserThrow 3),
   mkWorld (store empty_world) (snapshot empty_world) 1 (trace empty_world ++ [EInit])).
Proof.
  split; [reflexivity|].
  apply (createWithReset_propagates_initializer_throw
           (fun e => (Throw (UserThrow 3), (e + 1)%Z)) empty_world (UserThrow 3) 1);
    reflexivity.
Defined.

Lemma resetState_no_arguments_is_noop_witness :
  let w := run_ops counter_fn [OpCall "increment" []]
             (snd (createWithReset (fun e => (Ok counter_raw, e)) empty_world)) in
  js_get (current w) (KStr "resetState") = VFun FDefaultResetState /\
  call_field counter_fn "resetState" [] w =
  (Ok tt, mkWorld (Some (current w)) (snapshot w) (ext w)
                  (trace w ++ [ECall (VFun FDefaultResetState); ESet []])).
Proof.
  intro w. split; [reflexivity|].
  apply (resetState_no_arguments_is_noop counter_fn w); reflexivity.
Defined.


Lemma non_callable_resetStore_restored_over_default_witness :
  let o := [(KStr "count", VNum 0); (KStr "resetStore", VNum 42)] in
  (fun (e : Z) => (Ok (RawObj o VObjectPrototype), e)) (ext empty_world)
  = (Ok (RawObj o VObjectPrototype), 0%Z) /\
  lookup o (KStr "resetStore") = Some (VNum 42) /\
  is_function (VNum 42) = false /\
  exists w1,
    createWithReset (fun e => (Ok (RawObj o VObjectPrototype), e)) empty_world = (Ok tt, w1) /\
    js_get (current w1) (KStr "resetStore") = VFun FDefaultResetStore /\
    lookup (own (snapshot w1)) (KStr "resetStore") = Some (VNum 42) /\
    let '(r, w2) := call_field counter_fn "resetStore" [] w1 in
    r = Ok tt /\
    lookup (current w2) (KStr "resetStore") = Some (VNum 42) /\
    is_function (js_get (current w2) (KStr "resetStore")) = false.
Proof.
  intro o. split; [reflexivity|]. split; [reflexivity|]. split; [reflexivity|].
  apply (non_callable_resetStore_restored_over_default counter_fn
           (fun e => (Ok (RawObj o VObjectPrototype), e)) empty_world o VObjectPrototype 0
           (VNum 42)); reflexivity.
Defined.

(** ** Witnesses of the further properties *)


Lemma resetStore_idempotent_witness :
  let w1 := snd (createWithReset (fun e => (Ok counter_raw, e)) empty_world) in
  let ops := [OpCall "increment" []; OpSetState [(KStr "secondaryCount", VNum 15)]] in
  createWithReset (fun e => (Ok counter_raw, e)) empty_world = (Ok tt, w1) /\
  let w := run_ops counter_fn ops w1 in
  let w2 := snd (call_fn counter_fn (VFun FDefaultResetStore) [] w) in
  let w3 := snd (call_fn counter_fn (VFun FDefaultResetStore) [] w2) in
  forall k, lookup (current w3) k = lookup (current w2) k.
Proof.
  intros w1 ops. split; [reflexivity|].
  apply (resetStore_idempotent counter_fn (fun e => (Ok counter_raw, e)) empty_world w1 ops).
  reflexivity.
Defined.

Lemma resetState_all_snapshot_keys_is_resetStore_witness :
  let w1 := snd (createWithReset (fun e => (Ok counter_raw, e)) empty_world) in
  let ops := [OpCall "increment" []; OpSetState [(KStr "secondaryCount", VNum 15)]] in
  createWithReset (fun e => (Ok counter_raw, e)) empty_world = (Ok tt, w1) /\
  let w := run_ops counter_fn ops w1 in
  let w2 := snd (call_fn counter_fn (VFun FDefaultResetState)
                   [AMany (map fst (own (snapshot w1)))] w) in
  let w3 := snd (call_fn counter_fn (VFun FDefaultResetStore) [] w) in
  forall k, lookup (current w2) k = lookup (current w3) k.
Proof.
  intros w1 ops. split; [reflexivity|].
  apply (resetState_all_snapshot_keys_is_resetStore counter_fn (fun e => (Ok counter_raw, e))
           empty_world w1 ops).
  reflexivity.
Defined.

Lemma createWithReset_keeps_user_fields_witness :
  let o := [(KStr "count", VNum 0); (KStr "increment", VFun (FUser 0))] in
  (fun (e : Z) => (Ok (RawObj o VObjectPrototype), e)) (ext empty_world)
  = (Ok (RawObj o VObjectPrototype), 0%Z) /\
  NoDup (map fst o) /\
  exists w1,
    createWithReset (fun e => (Ok (RawObj o VObjectPrototype), e)) empty_world = (Ok tt, w1) /\
    forall k, k <> KStr "resetStore" -> k <> KStr "resetState" ->
              lookup (current w1) k = lookup o k.
Proof.
  intro o.
  assert (Hnd : NoDup (map fst o))
    by (constructor; [simpl; intros [H|[]]; discriminate|constructor; [intros []|constructor]]).
  split; [reflexivity|]. split; [exact Hnd|].
  apply (createWithReset_keeps_user_fields (fun e => (Ok (RawObj o VObjectPrototype), e))
           empty_world o VObjectPrototype 0); [reflexivity|exact Hnd].
Defined.

Lemma resetStore_keeps_behaviour_and_new_fields_witness :
  let o := [(KStr "count", VNum 0); (KStr "increment", VFun (FUser 0))] in
  (fun (e : Z) => (Ok (RawObj o VObjectPrototype), e)) (ext empty_world)
  = (Ok (RawObj o VObjectPrototype), 0%Z) /\
  exists w1,
    createWithReset (fun e => (Ok (RawObj o VObjectPrototype), e)) empty_world = (Ok tt, w1) /\
    forall ops k,
      (lookup o k = None \/ exists f, lookup o k = Some f /\ is_function f = true) ->
      let w := run_ops counter_fn ops w1 in
      lookup (current (snd (call_fn counter_fn (VFun FDefaultResetStore) [] w))) k
      = lookup (current w) k.
Proof.
  intro o. split; [reflexivity|].
  apply (resetStore_keeps_behaviour_and_new_fields counter_fn
           (fun e => (Ok (RawObj o VObjectPrototype), e)) empty_world o VObjectPrototype 0).
  reflexivity.
Defined.

Lemma resetStore_after_construction_is_noop_witness :
  let o := [(KStr "count", VNum 0); (KStr "increment", VFun (FUser 0))] in
  (fun (e : Z) => (Ok (RawObj o VObjectPrototype), e)) (ext empty_world)
  = (Ok (RawObj o VObjectPrototype), 0%Z) /\
  NoDup (map fst o) /\
  (forall n v, (n = "resetStore" \/ n = "resetState") ->
               lookup o (KStr n) = Some v -> is_function v = true) /\
  exists w1,
    createWithReset (fun e => (Ok (RawObj o VObjectPrototype), e)) empty_world = (Ok tt, w1) /\
    forall k, lookup (current (snd (call_fn counter_fn (VFun FDefaultResetStore) [] w1))) k
              = lookup (current w1) k.
Proof.
  intro o.
  assert (Hnd : NoDup (map fst o))
    by (constructor; [simpl; intros [H|[]]; discriminate|constructor; [intros []|constructor]]).
  assert (Hr : forall n v, (n = "resetStore" \/ n = "resetState") ->
                           lookup o (KStr n) = Some v -> is_function v = true)
    by (intros n v [-> | ->] H; vm_compute in H; discriminate).
  split; [reflexivity|]. split; [exact Hnd|]. split; [exact Hr|].
  apply (resetStore_after_construction_is_noop counter_fn
           (fun e => (Ok (RawObj o VObjectPrototype), e)) empty_world o VObjectPrototype 0);
    [reflexivity|exact Hnd|exact Hr].
Defined.

Lemma default_reset_fields_survive_resets_witness :
  let o := [(KStr "count", VNum 0); (KStr "increment", VFun (FUser 0))] in
  (fun (e : Z) => (Ok (RawObj o VObjectPrototype), e)) (ext empty_world)
  = (Ok (RawObj o VObjectPrototype), 0%Z) /\
  has_prop (KStr "resetStore") (mkPlain o VObjectPrototype) = false /\
  has_prop (KStr "resetState") (mkPlain o VObjectPrototype) = false /\
  lookup o (KStr "__proto__") = None /\
  exists w1,
    createWithReset (fun e => (Ok (RawObj o VObjectPrototype), e)) empty_world = (Ok tt, w1) /\
    forall ops,
      Forall (fun op => exists n a, op = OpCall n a /\
                                    (n = "resetStore" \/ n = "resetState")) ops ->
      js_get (current (run_ops counter_fn ops w1)) (KStr "resetStore") = VFun FDefaultResetStore /\
      js_get (current (run_ops counter_fn ops w1)) (KStr "resetState") = VFun FDefaultResetState.
Proof.
  intro o. split; [reflexivity|]. split; [reflexivity|]. split; [reflexivity|].
  split; [reflexivity|].
  apply (default_reset_fields_survive_resets counter_fn
           (fun e => (Ok (RawObj o VObjectPrototype), e)) empty_world o VObjectPrototype 0);
    reflexivity.
Defined.

Lemma user_reset_field_used_verbatim_witness :
  let o := [(KStr "count", VNum 0); (KStr "resetStore", VFun (FUser 7))] in
  ("resetStore" = "resetStore" \/ "resetStore" = "resetState") /\
  (fun (e : Z) => (Ok (RawObj o VObjectPrototype), e)) (ext empty_world)
  = (Ok (RawObj o VObjectPrototype), 0%Z) /\
  lookup o (KStr "resetStore") = Some (VFun (FUser 7)) /\
  exists w1,
    createWithReset (fun e => (Ok (RawObj o VObjectPrototype), e)) empty_world = (Ok tt, w1) /\
    js_get (current w1) (KStr "resetStore") = VFun (FUser 7) /\
    (forall args w,
       js_get (current w) (KStr "resetStore") = VFun (FUser 7) ->
       call_field counter_fn "resetStore" args w =
       user_call counter_fn 7 args
         (mkWorld (store w) (snapshot w) (ext w) (trace w ++ [ECall (VFun (FUser 7))]))).
Proof.
  intro o. split; [left; reflexivity|]. split; [reflexivity|]. split; [reflexivity|].
  apply (user_reset_field_used_verbatim counter_fn (fun e => (Ok (RawObj o VObjectPrototype), e))
           empty_world o VObjectPrototype 0 "resetStore" 7);
    [left|..]; reflexivity.
Defined.

Lemma initial_snapshot_characterisation_witness :
  let o := [(KStr "__proto__", VObj 1 [(KStr "a", VNum 1)] VObjectPrototype);
            (KStr "count", VNum 0); (KStr "increment", VFun (FUser 0))] in
  (fun (e : Z) => (Ok (RawObj o VObjectPrototype), e)) (ext empty_world)
  = (Ok (RawObj o VObjectPrototype), 0%Z) /\
  exists w1,
    createWithReset (fun e => (Ok (RawObj o VObjectPrototype), e)) empty_world = (Ok tt, w1) /\
    (forall k v, lookup (own (snapshot w1)) k = Some v <->
                 exists s, k = KStr s /\ s <> "__proto__" /\
                           lookup o k = Some v /\ is_function v = false) /\
    proto (snapshot w1) =
      match lookup o (KStr "__proto__") with
      | Some v => if negb (is_function v) && is_object_or_null v then v else VObjectPrototype
      | None => VObjectPrototype
      end /\
    (forall (user_fn : nat -> list arg -> obj -> Z -> result unit * (obj * Z)) ops,
       snapshot (run_ops user_fn ops w1) = snapshot w1).
Proof.
  intro o. split; [reflexivity|].
  apply (initial_snapshot_characterisation (fun e => (Ok (RawObj o VObjectPrototype), e))
           empty_world o VObjectPrototype 0).
  reflexivity.
Defined.
